(** * A shallow embedding of bot_address_book_9.py

    Python strings are modelled as lists of Unicode code points ([pystr]).
    The Python character predicates used by the source ([str.isdigit],
    [str.isspace] through [str.strip]) are given by their tables for
    Unicode 14.0 (the database of CPython 3.11). Exceptions raised by the
    code are the constructors of [exn]; a computation that may raise is a
    value of [res A]. The [AddressBook.records] dict is an association
    list kept in insertion order, updated in place on an existing key, as
    a Python dict is. *)

From Stdlib Require Import List ZArith String Ascii Bool Lia.
Import ListNotations.
Local Open Scope string_scope.
Local Open Scope list_scope.

Definition pystr := list Z.

(** A Python string literal written in ASCII. *)
Definition ustr (s : string) : pystr :=
  map (fun a => Z.of_nat (nat_of_ascii a)) (list_ascii_of_string s).

Definition str_eq_dec : forall a b : pystr, {a = b} + {a <> b} :=
  list_eq_dec Z.eq_dec.

Definition str_eqb (a b : pystr) : bool :=
  if str_eq_dec a b then true else false.

Definition in_ranges (rs : list (Z * Z)) (c : Z) : bool :=
  existsb (fun '(lo, hi) => (lo <=? c)%Z && (c <=? hi)%Z) rs.

(** Code points for which CPython 3.11's [str.isdigit] holds. *)
Definition isdigit_ranges : list (Z * Z) :=
  [(48, 57); (178, 179); (185, 185); (1632, 1641); (1776, 1785); (1984, 1993);
   (2406, 2415); (2534, 2543); (2662, 2671); (2790, 2799); (2918, 2927);
   (3046, 3055); (3174, 3183); (3302, 3311); (3430, 3439); (3558, 3567);
   (3664, 3673); (3792, 3801); (3872, 3881); (4160, 4169); (4240, 4249);
   (4969, 4977); (6112, 6121); (6160, 6169); (6470, 6479); (6608, 6618);
   (6784, 6793); (6800, 6809); (6992, 7001); (7088, 7097); (7232, 7241);
   (7248, 7257); (8304, 8304); (8308, 8313); (8320, 8329); (9312, 9320);
   (9332, 9340); (9352, 9360); (9450, 9450); (9461, 9469); (9471, 9471);
   (10102, 10110); (10112, 10120); (10122, 10130); (42528, 42537);
   (43216, 43225); (43264, 43273); (43472, 43481); (43504, 43513);
   (43600, 43609); (44016, 44025); (65296, 65305); (66720, 66729);
   (68160, 68163); (68912, 68921); (69216, 69224); (69714, 69722);
   (69734, 69743); (69872, 69881); (69942, 69951); (70096, 70105);
   (70384, 70393); (70736, 70745); (70864, 70873); (71248, 71257);
   (71360, 71369); (71472, 71481); (71904, 71913); (72016, 72025);
   (72784, 72793); (73040, 73049); (73120, 73129); (92768, 92777);
   (92864, 92873); (93008, 93017); (120782, 120831); (123200, 123209);
   (123632, 123641); (125264, 125273); (127232, 127242); (130032, 130041)]%Z.

(** Code points for which CPython 3.11's [str.isspace] holds. *)
Definition isspace_ranges : list (Z * Z) :=
  [(9, 13); (28, 32); (133, 133); (160, 160); (5760, 5760); (8192, 8202);
   (8232, 8233); (8239, 8239); (8287, 8287); (12288, 12288)]%Z.

Definition isdigit_char : Z -> bool := in_ranges isdigit_ranges.
Definition isspace_char : Z -> bool := in_ranges isspace_ranges.

(** [s.isdigit()]: false on the empty string. *)
Definition py_isdigit (s : pystr) : bool :=
  match s with
  | [] => false
  | _ => forallb isdigit_char s
  end.

Fixpoint lstrip (s : pystr) : pystr :=
  match s with
  | [] => []
  | c :: t => if isspace_char c then lstrip t else s
  end.

(** [s.strip()] *)
Definition py_strip (s : pystr) : pystr := rev (lstrip (rev (lstrip s))).

(** [s.startswith(p)] *)
Fixpoint startswith (p s : pystr) : bool :=
  match p, s with
  | [], _ => true
  | c :: p', d :: s' => Z.eqb c d && startswith p' s'
  | _ :: _, [] => false
  end.

(** [s.split(sep)] with an explicit one-character separator. *)
Fixpoint py_split (sep : Z) (s : pystr) : list pystr :=
  match s with
  | [] => [[]]
  | c :: t =>
      let parts := py_split sep t in
      if Z.eqb c sep then [] :: parts
      else match parts with
           | p :: ps => (c :: p) :: ps
           | [] => [[c]]
           end
  end.

(** [sep.join(l)] *)
Fixpoint join (sep : pystr) (l : list pystr) : pystr :=
  match l with
  | [] => []
  | [x] => x
  | x :: t => x ++ sep ++ join sep t
  end.

(** The exceptions the code raises. *)
Inductive exn := KeyError | ValueError | IndexError.

Definition res (A : Type) : Type := (exn + A)%type.

(** [Name.__init__]: the [Field] value is the argument itself. *)
Definition Name_init (name : pystr) : res pystr :=
  match py_strip name with
  | [] => inl ValueError
  | _ => inr name
  end.

(** [Phone.__init__] *)
Definition Phone_init (number : pystr) : res pystr :=
  if negb (py_isdigit number) || negb (Nat.eqb (List.length number) 10)
  then inl ValueError
  else inr number.

(** [Record]: [name.value] and the values of [phones]. *)
Record record := mk_record { rec_name : pystr; rec_phones : list pystr }.

(** [Record.__init__] *)
Definition Record_init (name : pystr) : res record :=
  match Name_init name with
  | inl e => inl e
  | inr n => inr (mk_record n [])
  end.

(** [Record.add_phone] *)
Definition add_phone (r : record) (phone_number : pystr) : res record :=
  match Phone_init phone_number with
  | inl e => inl e
  | inr p => inr (mk_record (rec_name r) (rec_phones r ++ [p]))
  end.

(** [Record.find_phone] *)
Definition find_phone (r : record) (phone_number : pystr) : option pystr :=
  List.find (fun p => str_eqb p phone_number) (rec_phones r).

(** [Record.__str__] *)
Definition Record_str (r : record) : pystr :=
  ustr "Contact name: " ++ rec_name r ++ ustr ", phones: "
    ++ join (ustr "; ") (rec_phones r).

(** [AddressBook.records] *)
Definition book := list (pystr * record).

(** [records[k] = r]: in place on an existing key, appended otherwise. *)
Fixpoint dict_set (k : pystr) (r : record) (ab : book) : book :=
  match ab with
  | [] => [(k, r)]
  | (k', r') :: t => if str_eqb k k' then (k, r) :: t else (k', r') :: dict_set k r t
  end.

(** [records.get(k, None)] *)
Fixpoint dict_get (k : pystr) (ab : book) : option record :=
  match ab with
  | [] => None
  | (k', r') :: t => if str_eqb k k' then Some r' else dict_get k t
  end.

(** [k in records] *)
Definition dict_mem (k : pystr) (ab : book) : bool :=
  match dict_get k ab with Some _ => true | None => false end.

(** [del records[k]] *)
Fixpoint dict_del (k : pystr) (ab : book) : book :=
  match ab with
  | [] => []
  | (k', r') :: t => if str_eqb k k' then t else (k', r') :: dict_del k t
  end.

(** [AddressBook.add_record] *)
Definition add_record (r : record) (ab : book) : book := dict_set (rec_name r) r ab.

(** [AddressBook.find] *)
Definition find (name : pystr) (ab : book) : option record := dict_get name ab.

(** [AddressBook.delete] *)
Definition delete (name : pystr) (ab : book) : book :=
  if dict_mem name ab then dict_del name ab else ab.

(** [AddressBook.__str__] *)
Definition AddressBook_str (ab : book) : pystr :=
  join (ustr "
") (map (fun kr => Record_str (snd kr)) ab).

(** The [input_error] decorator applied to a handler's outcome. *)
Definition input_error (r : res pystr) : pystr :=
  match r with
  | inr s => s
  | inl KeyError => ustr "Contact not found."
  | inl ValueError => ustr "Invalid input format."
  | inl IndexError => ustr "Not enough arguments."
  end.

(** The body of [add_contact]; [name, phone = args] raises [ValueError]
    unless [args] has exactly two elements. The book is only mutated by
    the final [add_record]. *)
Definition add_contact_body (args : list pystr) (ab : book) : res pystr * book :=
  match args with
  | [name; phone] =>
      match Record_init name with
      | inl e => (inl e, ab)
      | inr r =>
          match add_phone r phone with
          | inl e => (inl e, ab)
          | inr r' => (inr (ustr "Contact " ++ name ++ ustr " added."), add_record r' ab)
          end
      end
  | _ => (inl ValueError, ab)
  end.

(** [add_contact] as decorated by [input_error]. *)
Definition add_contact (args : list pystr) (ab : book) : pystr * book :=
  let '(r, ab') := add_contact_body args ab in (input_error r, ab').

(** The body of [get_phone]; [args[0]] raises [IndexError] on []. A
    [Record] instance is always truthy. *)
Definition get_phone_body (args : list pystr) (ab : book) : res pystr :=
  match args with
  | [] => inl IndexError
  | name :: _ =>
      match find name ab with
      | Some r => inr (Record_str r)
      | None => inr (ustr "Contact not found.")
      end
  end.

Definition get_phone (args : list pystr) (ab : book) : pystr :=
  input_error (get_phone_body args ab).

(** One iteration of the loop of [main]. [str.lower] (a Unicode table) is
    a parameter [py_lower]. The result is the printed lines, the new book
    and whether the loop continues. *)
Section MainLoop.
Variable py_lower : pystr -> pystr.

Definition main_step (line : pystr) (ab : book) : list pystr * book * bool :=
  let com := py_lower line in
  if str_eqb com (ustr "hello") then ([ustr "How can I help you?"], ab, true)
  else if startswith (ustr "add") com then
    let parts := py_split 32%Z com in
    if Nat.ltb (List.length parts) 3
    then ([ustr "Invalid format. Use: add [name] [number]"], ab, true)
    else
      let '(out, ab') := add_contact [nth 1 parts []; nth 2 parts []] ab in
      ([out], ab', true)
  else if startswith (ustr "phone") com then
    let parts := py_split 32%Z com in
    if Nat.ltb (List.length parts) 2
    then ([ustr "Invalid format. Use: phone [name]"], ab, true)
    else ([get_phone [nth 1 parts []] ab], ab, true)
  else if str_eqb com (ustr "all") then
    match ab with
    | [] => ([ustr "No contacts saved yet."], ab, true)
    | _ => ([ustr "Saved contacts:"; AddressBook_str ab], ab, true)
    end
  else if str_eqb com (ustr "exit") then ([ustr "Good bye!"], ab, false)
  else ([ustr "Invalid command. Try again.e"], ab, true).

(** The loop of [main] over a finite input, from a given book. *)
Fixpoint main_run (lines : list pystr) (ab : book) : list pystr :=
  match lines with
  | [] => []
  | l :: ls =>
      let '(out, ab', cont) := main_step l ab in
      out ++ (if cont then main_run ls ab' else [])
  end.

End MainLoop.

(** [str.lower] on code points below 128 (and the identity elsewhere): it
    agrees with CPython on ASCII input. *)
Definition ascii_lower (s : pystr) : pystr :=
  map (fun c => if ((65 <=? c) && (c <=? 90))%Z then (c + 32)%Z else c) s.

Example end_to_end :
  main_run ascii_lower
    [ustr "add john 1234567890"; ustr "phone john"; ustr "all"; ustr "exit"] []
  = [ustr "Contact john added."; ustr "Contact name: john, phones: 1234567890";
     ustr "Saved contacts:"; ustr "Contact name: john, phones: 1234567890";
     ustr "Good bye!"].
Proof. vm_compute. reflexivity. Qed.

Example add_short_phone :
  main_run ascii_lower [ustr "add alice 123"] [] = [ustr "Invalid input format."].
Proof. vm_compute. reflexivity. Qed.

(** ** Helper lemmas *)

Definition is_infix (x s : pystr) : Prop := exists a b, s = a ++ x ++ b.

Definition is_ascii_digit (c : Z) : Prop := (48 <= c <= 57)%Z.

Lemma str_eqb_spec (a b : pystr) : str_eqb a b = true <-> a = b.
Proof. unfold str_eqb; destruct (str_eq_dec a b); split; congruence. Qed.

Lemma str_eqb_refl (a : pystr) : str_eqb a a = true.
Proof. apply str_eqb_spec; reflexivity. Qed.

Lemma str_eqb_neq (a b : pystr) : a <> b -> str_eqb a b = false.
Proof. intros H; destruct (str_eqb a b) eqn:E; [apply str_eqb_spec in E; congruence | reflexivity]. Qed.

Lemma forallb_rev {A} (f : A -> bool) (l : list A) : forallb f (rev l) = forallb f l.
Proof.
  induction l as [|x t IH]; simpl; [reflexivity|].
  rewrite forallb_app, IH; simpl; rewrite andb_true_r, andb_comm; reflexivity.
Qed.

Lemma rev_nil_iff {A} (l : list A) : rev l = [] <-> l = [].
Proof.
  split; intros H; [|subst; reflexivity].
  apply (f_equal (@rev A)) in H; rewrite rev_involutive in H; exact H.
Qed.

Lemma forallb_lstrip (s : pystr) :
  forallb isspace_char (lstrip s) = forallb isspace_char s.
Proof.
  induction s as [|c t IH]; simpl; [reflexivity|].
  destruct (isspace_char c) eqn:E; simpl; [exact IH | rewrite E; reflexivity].
Qed.

Lemma lstrip_nil (s : pystr) : lstrip s = [] <-> forallb isspace_char s = true.
Proof.
  induction s as [|c t IH]; simpl; [tauto|].
  destruct (isspace_char c); simpl; [exact IH | split; discriminate].
Qed.

Lemma py_strip_nil (s : pystr) : py_strip s = [] <-> forallb isspace_char s = true.
Proof.
  unfold py_strip.
  rewrite <- forallb_lstrip, <- forallb_rev, <- lstrip_nil.
  apply (rev_nil_iff (A := Z)).
Qed.

Lemma dict_get_set_eq (k : pystr) (r : record) (ab : book) :
  dict_get k (dict_set k r ab) = Some r.
Proof.
  induction ab as [|[k' r'] t IH]; simpl; [rewrite str_eqb_refl; reflexivity|].
  destruct (str_eqb k k') eqn:E; simpl; rewrite ?str_eqb_refl, ?E; auto.
Qed.

Lemma dict_get_set_ne (k j : pystr) (r : record) (ab : book) :
  j <> k -> dict_get j (dict_set k r ab) = dict_get j ab.
Proof.
  intros Hne; induction ab as [|[k' r'] t IH]; simpl.
  - rewrite str_eqb_neq by exact Hne; reflexivity.
  - destruct (str_eqb k k') eqn:E; simpl.
    + apply str_eqb_spec in E; subst k'. rewrite str_eqb_neq by exact Hne; reflexivity.
    + rewrite IH; reflexivity.
Qed.

Lemma dict_set_set (k : pystr) (r1 r2 : record) (ab : book) :
  dict_set k r2 (dict_set k r1 ab) = dict_set k r2 ab.
Proof.
  induction ab as [|[k' r'] t IH]; simpl; [rewrite str_eqb_refl; reflexivity|].
  destruct (str_eqb k k') eqn:E; simpl; rewrite ?str_eqb_refl, ?E, ?IH; reflexivity.
Qed.

Lemma length_dict_set_present (k : pystr) (r : record) (ab : book) :
  dict_get k ab <> None -> List.length (dict_set k r ab) = List.length ab.
Proof.
  induction ab as [|[k' r'] t IH]; simpl; [congruence|].
  destruct (str_eqb k k'); simpl; intros H; [reflexivity | rewrite IH; auto].
Qed.

Lemma dict_get_app (k : pystr) (l1 l2 : book) :
  dict_get k (l1 ++ l2) =
  match dict_get k l1 with Some r => Some r | None => dict_get k l2 end.
Proof.
  induction l1 as [|[k' r'] t IH]; simpl; [reflexivity|].
  destruct (str_eqb k k'); [reflexivity | exact IH].
Qed.

Lemma dict_get_in (k : pystr) (r : record) (l : book) :
  dict_get k l = Some r -> In k (map fst l).
Proof.
  induction l as [|[k' r'] t IH]; simpl; [discriminate|].
  destruct (str_eqb k k') eqn:E; intros H.
  - apply str_eqb_spec in E; left; congruence.
  - right; exact (IH H).
Qed.

Lemma dict_del_split (k : pystr) (r : record) (ab : book) :
  dict_get k ab = Some r ->
  exists pre post, ab = pre ++ (k, r) :: post /\ dict_del k ab = pre ++ post
                   /\ dict_get k pre = None.
Proof.
  induction ab as [|[k' r'] t IH]; simpl; [discriminate|].
  destruct (str_eqb k k') eqn:E; intros H.
  - apply str_eqb_spec in E; subst k'. injection H as <-.
    exists [], t; repeat split.
  - destruct (IH H) as (pre & post & Hab & Hdel & Hpre).
    exists ((k', r') :: pre), post; simpl; rewrite E, Hdel, Hab; repeat split; exact Hpre.
Qed.

(** The keys of a book built by [add_record] from the empty book are
    distinct, as the keys of a dict are. *)
Lemma dict_set_nodup (k : pystr) (r : record) (ab : book) :
  NoDup (map fst ab) -> NoDup (map fst (dict_set k r ab)).
Proof.
  assert (Hin : forall j, In j (map fst (dict_set k r ab)) -> j = k \/ In j (map fst ab)).
  { induction ab as [|[k' r'] t IH]; simpl; intros j Hj.
    - destruct Hj as [->|[]]; left; reflexivity.
    - destruct (str_eqb k k') eqn:E; simpl in Hj.
      + destruct Hj as [<-|Hj]; [left; reflexivity | right; right; exact Hj].
      + destruct Hj as [<-|Hj]; [right; left; reflexivity|].
        destruct (IH j Hj) as [?|?]; [left | right; right]; assumption. }
  clear Hin.
  induction ab as [|[k' r'] t IH]; simpl; intros Hnd.
  - constructor; [intros []| constructor].
  - inversion Hnd as [|? ? Hnot Hnd']; subst.
    destruct (str_eqb k k') eqn:E; simpl.
    + apply str_eqb_spec in E; subst k'; constructor; assumption.
    + constructor; [|exact (IH Hnd')].
      intros Hj.
      assert (Hk : k' = k \/ In k' (map fst t)).
      { clear IH Hnot Hnd Hnd'. induction t as [|[k2 r2] t2 IH2]; simpl in *.
        - destruct Hj as [->|[]]; left; reflexivity.
        - destruct (str_eqb k k2); simpl in Hj.
          + destruct Hj as [<-|?]; [left|right; right]; auto.
          + destruct Hj as [<-|Hj]; [right; left; reflexivity|].
            destruct (IH2 Hj); [left|right; right]; assumption. }
      destruct Hk as [Hk|Hk]; [subst k'; rewrite str_eqb_refl in E; discriminate | exact (Hnot Hk)].
Qed.

(** ** Claims *)

(** C1 (code_bug): with fewer than two arguments, [add_contact] answers
    "Invalid input format.", not "Not enough arguments.": the unpacking
    [name, phone = args] raises [ValueError], whereas the decorator's
    docstring assigns missing arguments to [IndexError]. *)
Theorem add_contact_few_args_invalid_format (ab : book) :
  add_contact [] ab = (ustr "Invalid input format.", ab) /\
  (forall name : pystr, add_contact [name] ab = (ustr "Invalid input format.", ab)) /\
  input_error (inl IndexError) = ustr "Not enough arguments.".
Proof. repeat split. Qed.

(** C2 (corrected): [Phone] construction succeeds exactly on strings of
    length 10 whose characters all satisfy [str.isdigit] (Unicode digits,
    not only ASCII ones); the listed examples behave as stated. *)
Theorem Phone_init_isdigit (s : pystr) :
  ((exists p, Phone_init s = inr p) <->
   List.length s = 10%nat /\ Forall (fun c => isdigit_char c = true) s) /\
  (forall p, Phone_init s = inr p -> p = s) /\
  (forall e, Phone_init s = inl e -> e = ValueError) /\
  Phone_init (ustr "12345") = inl ValueError /\
  Phone_init (ustr "12345abcde") = inl ValueError /\
  Phone_init (ustr "0123456789") = inr (ustr "0123456789").
Proof.
  unfold Phone_init.
  destruct (Nat.eqb (List.length s) 10) eqn:Hl;
  destruct (py_isdigit s) eqn:Hd; simpl;
  (split; [|split; [|split; [|split; [|split]]]]); try reflexivity;
  try (intros ? H; injection H; auto; fail); try (intros ? H; discriminate H);
  try (intros ? H; injection H; auto; fail).
  all: apply Nat.eqb_eq in Hl || apply Nat.eqb_neq in Hl.
  all: unfold py_isdigit in Hd.
  all: split; [intros [p H]; try discriminate H|].
  - split; [exact Hl|]. destruct s as [|c t]; [discriminate|].
    apply Forall_forall; intros x Hx; eapply forallb_forall in Hd; eauto.
  - intros _; eexists; reflexivity.
  - intros [_ HF]. destruct s as [|c t]; [simpl in Hl; discriminate|].
    assert (forallb isdigit_char (c :: t) = true) as Hf.
    { apply forallb_forall; intros x Hx. rewrite Forall_forall in HF; auto. }
    rewrite Hf in Hd; discriminate.
  - intros [Hl' _]; contradiction.
  - intros [Hl' _]; contradiction.
Qed.

Definition arabic_indic_phone : pystr :=
  [1632; 1633; 1634; 1635; 1636; 1637; 1638; 1639; 1640; 1641]%Z.

(** C2 counterexample: ten ARABIC-INDIC DIGIT characters (U+0660 to
    U+0669) make a valid [Phone], though none of them is an ASCII digit. *)
Lemma Phone_accepts_non_ascii_digits :
  ~ (forall s : pystr,
       (exists p, Phone_init s = inr p) <->
       List.length s = 10%nat /\ Forall is_ascii_digit s).
Proof.
  intros H.
  destruct (H arabic_indic_phone) as [H1 _].
  destruct H1 as [_ HF]; [eexists; vm_compute; reflexivity|].
  inversion HF as [|c t Hc _]; unfold is_ascii_digit in Hc; lia.
Qed.

(** C3: [Name] construction fails with [ValueError] exactly when the
    stripped string is empty (that is, when every character is Python
    whitespace), and otherwise keeps the argument; the listed examples
    behave as stated. *)
Theorem Name_init_strip_empty (s : pystr) :
  (Name_init s = inl ValueError <-> py_strip s = []) /\
  (py_strip s <> [] -> Name_init s = inr s) /\
  (forall e, Name_init s = inl e -> e = ValueError) /\
  (py_strip s = [] <-> forallb isspace_char s = true) /\
  Name_init (ustr "") = inl ValueError /\
  Name_init (ustr "   ") = inl ValueError /\
  Name_init (ustr "Ann") = inr (ustr "Ann").
Proof.
  unfold Name_init.
  split; [|split; [|split; [|split; [|split; [|split]]]]];
    try reflexivity; try apply py_strip_nil.
  - destruct (py_strip s); split; congruence.
  - destruct (py_strip s); congruence.
  - destruct (py_strip s); intros e H; congruence.
Qed.

Lemma add_contact_valid (n p : pystr) (ab : book) :
  Name_init n = inr n -> Phone_init p = inr p ->
  add_contact_body [n; p] ab =
  (inr (ustr "Contact " ++ n ++ ustr " added."), add_record (mk_record n [p]) ab).
Proof.
  intros Hn Hp; unfold add_contact_body, Record_init, add_phone.
  rewrite Hn, Hp; reflexivity.
Qed.

Lemma add_contact_valid' (n p : pystr) (ab : book) :
  Name_init n = inr n -> Phone_init p = inr p ->
  add_contact [n; p] ab =
  (ustr "Contact " ++ n ++ ustr " added.", add_record (mk_record n [p]) ab).
Proof.
  intros Hn Hp; unfold add_contact; rewrite (add_contact_valid n p ab Hn Hp).
  reflexivity.
Qed.

(** C4: two successful [add_contact] calls with the same name, or two
    [add_record] calls on equally named records, leave one entry under
    that name, holding the second record: the size of the book does not
    change with the second call (it is 1 from the empty book). *)
Theorem same_name_overwrites (n p1 p2 : pystr) (ab : book) (r1 r2 : record) :
  Name_init n = inr n -> Phone_init p1 = inr p1 -> Phone_init p2 = inr p2 ->
  rec_name r1 = rec_name r2 ->
  (let ab1 := snd (add_contact [n; p1] ab) in
   let ab2 := snd (add_contact [n; p2] ab1) in
   ab2 = add_record (mk_record n [p2]) ab /\
   find n ab2 = Some (mk_record n [p2]) /\
   List.length ab2 = List.length ab1 /\
   (ab = [] -> List.length ab2 = 1%nat)) /\
  (let ab2 := add_record r2 (add_record r1 ab) in
   ab2 = add_record r2 ab /\
   find (rec_name r2) ab2 = Some r2 /\
   List.length ab2 = List.length (add_record r1 ab) /\
   (ab = [] -> List.length ab2 = 1%nat)).
Proof.
  intros Hn Hp1 Hp2 Hr. cbv zeta.
  rewrite (add_contact_valid' n p1 ab Hn Hp1); simpl snd.
  rewrite (add_contact_valid' n p2 _ Hn Hp2); simpl snd.
  unfold add_record, find; simpl rec_name. rewrite Hr.
  split; repeat split.
  - apply dict_set_set.
  - rewrite dict_set_set; apply dict_get_set_eq.
  - apply length_dict_set_present; rewrite dict_get_set_eq; discriminate.
  - intros ->; simpl; rewrite str_eqb_refl; reflexivity.
  - apply dict_set_set.
  - rewrite dict_set_set; apply dict_get_set_eq.
  - apply length_dict_set_present; rewrite dict_get_set_eq; discriminate.
  - intros ->; simpl; rewrite str_eqb_refl; reflexivity.
Qed.

Lemma same_name_overwrites_witness :
  let n := ustr "john" in
  let p1 := ustr "1234567890" in
  let p2 := ustr "0987654321" in
  (Name_init n = inr n /\ Phone_init p1 = inr p1 /\ Phone_init p2 = inr p2 /\
   rec_name (mk_record n [p1]) = rec_name (mk_record n [p2])) /\
  find n (snd (add_contact [n; p2] (snd (add_contact [n; p1] []))))
  = Some (mk_record n [p2]).
Proof.
  intros n p1 p2.
  assert (Hn : Name_init n = inr n) by (vm_compute; reflexivity).
  assert (H1 : Phone_init p1 = inr p1) by (vm_compute; reflexivity).
  assert (H2 : Phone_init p2 = inr p2) by (vm_compute; reflexivity).
  split; [repeat split; assumption|].
  exact (proj1 (proj2 (proj1 (same_name_overwrites n p1 p2 []
           (mk_record n [p1]) (mk_record n [p2]) Hn H1 H2 eq_refl)))).
Defined.

(** C5: [get_phone] on a name absent from the book returns
    "Contact not found." and its body raises nothing. *)
Theorem get_phone_absent (name : pystr) (rest : list pystr) (ab : book) :
  find name ab = None ->
  get_phone_body (name :: rest) ab = inr (ustr "Contact not found.") /\
  get_phone (name :: rest) ab = ustr "Contact not found.".
Proof.
  intros H; unfold get_phone, get_phone_body; rewrite H; split; reflexivity.
Qed.

Lemma get_phone_absent_witness :
  find (ustr "bob") [] = None /\ get_phone [ustr "bob"] [] = ustr "Contact not found.".
Proof.
  split; [reflexivity|].
  exact (proj2 (get_phone_absent (ustr "bob") [] [] eq_refl)).
Defined.

(** C6: after a successful [add_contact [n; p]], [find n] returns a
    record whose rendered string contains [p]. *)
Theorem add_then_find_contains_phone (n p : pystr) (ab : book) :
  Name_init n = inr n -> Phone_init p = inr p ->
  fst (add_contact [n; p] ab) = ustr "Contact " ++ n ++ ustr " added." /\
  exists r, find n (snd (add_contact [n; p] ab)) = Some r /\
            is_infix p (Record_str r).
Proof.
  intros Hn Hp; rewrite (add_contact_valid' n p ab Hn Hp).
  split; [reflexivity|].
  exists (mk_record n [p]); split.
  - apply dict_get_set_eq.
  - exists (ustr "Contact name: " ++ n ++ ustr ", phones: "), [].
    unfold Record_str; cbn [rec_name rec_phones join].
    rewrite app_nil_r, <- !app_assoc; reflexivity.
Qed.

Lemma add_then_find_contains_phone_witness :
  (Name_init (ustr "john") = inr (ustr "john") /\
   Phone_init (ustr "1234567890") = inr (ustr "1234567890")) /\
  exists r, find (ustr "john") (snd (add_contact [ustr "john"; ustr "1234567890"] [])) = Some r
            /\ is_infix (ustr "1234567890") (Record_str r).
Proof.
  assert (Hn : Name_init (ustr "john") = inr (ustr "john")) by (vm_compute; reflexivity).
  assert (Hp : Phone_init (ustr "1234567890") = inr (ustr "1234567890"))
    by (vm_compute; reflexivity).
  split; [split; assumption|].
  exact (proj2 (add_then_find_contains_phone (ustr "john") (ustr "1234567890") [] Hn Hp)).
Defined.

(** C7 counterexample: on the line [phone] with no name, the loop of
    [main] prints the usage message of its own length guard, not
    "Not enough arguments.". *)
Lemma phone_no_name_not_arity_message :
  fst (fst (main_step ascii_lower (ustr "phone") [])) <> [ustr "Not enough arguments."].
Proof. vm_compute. discriminate. Qed.

(** C7 (corrected): the command [phone] with no name token (the line
    lower-cases to [phone]) prints "Invalid format. Use: phone [name]",
    leaves the book unchanged and the loop continues. *)
Theorem phone_no_name_usage (py_lower : pystr -> pystr) (ab : book) :
  py_lower (ustr "phone") = ustr "phone" ->
  main_step py_lower (ustr "phone") ab =
  ([ustr "Invalid format. Use: phone [name]"], ab, true).
Proof. intros H; unfold main_step; rewrite H; reflexivity. Qed.

Lemma phone_no_name_usage_witness :
  ascii_lower (ustr "phone") = ustr "phone" /\
  main_step ascii_lower (ustr "phone") [] =
  ([ustr "Invalid format. Use: phone [name]"], [], true).
Proof.
  split; [reflexivity|].
  apply phone_no_name_usage; reflexivity.
Defined.

(** C8: [delete] of an absent name leaves the book unchanged; of a
    present name (in a book whose keys are distinct, as a dict's are) it
    removes exactly that entry, in place, and no other lookup changes. *)
Theorem delete_spec (name : pystr) (ab : book) :
  NoDup (map fst ab) ->
  (find name ab = None -> delete name ab = ab) /\
  (forall r, find name ab = Some r ->
     exists pre post, ab = pre ++ (name, r) :: post /\
                      delete name ab = pre ++ post /\
                      find name (delete name ab) = None /\
                      (forall k, k <> name -> find k (delete name ab) = find k ab)).
Proof.
  intros Hnd; unfold delete, dict_mem, find; split.
  - intros H; rewrite H; reflexivity.
  - intros r H; rewrite H.
    destruct (dict_del_split name r ab H) as (pre & post & Hab & Hdel & Hpre).
    exists pre, post; rewrite Hdel; repeat split; [exact Hab| |].
    + rewrite dict_get_app, Hpre.
      destruct (dict_get name post) eqn:Hp; [|reflexivity].
      exfalso. apply dict_get_in in Hp.
      rewrite Hab, map_app in Hnd; simpl in Hnd.
      apply NoDup_remove_2 in Hnd; apply Hnd, in_or_app; right; exact Hp.
    + intros k Hk. rewrite Hab, !dict_get_app.
      destruct (dict_get k pre); [reflexivity|].
      simpl; rewrite str_eqb_neq by exact Hk; reflexivity.
Qed.

Lemma delete_spec_witness :
  let ab := add_record (mk_record (ustr "bob") [])
              (add_record (mk_record (ustr "ann") []) []) in
  NoDup (map fst ab) /\ find (ustr "ann") ab = Some (mk_record (ustr "ann") []) /\
  exists pre post, ab = pre ++ (ustr "ann", mk_record (ustr "ann") []) :: post /\
                   delete (ustr "ann") ab = pre ++ post /\
                   find (ustr "ann") (delete (ustr "ann") ab) = None /\
                   (forall k, k <> ustr "ann" ->
                      find k (delete (ustr "ann") ab) = find k ab).
Proof.
  intros ab.
  assert (Hnd : NoDup (map fst ab))
    by (unfold ab, add_record; apply dict_set_nodup, dict_set_nodup; constructor).
  assert (Hf : find (ustr "ann") ab = Some (mk_record (ustr "ann") [])) by reflexivity.
  split; [exact Hnd|]. split; [exact Hf|].
  exact (proj2 (delete_spec (ustr "ann") ab Hnd) _ Hf).
Defined.

(** C9: when [add_contact [n; p]] fails because [n] or [p] does not
    validate, it answers "Invalid input format." and the book is left
    unchanged. *)
Theorem add_contact_invalid_keeps_book (n p : pystr) (ab : book) :
  Name_init n = inl ValueError \/ Phone_init p = inl ValueError ->
  add_contact [n; p] ab = (ustr "Invalid input format.", ab).
Proof.
  intros H; unfold add_contact, add_contact_body, Record_init, add_phone.
  destruct (Name_init n) as [e|n'] eqn:Hn.
  - assert (e = ValueError) as ->
      by (unfold Name_init in Hn; destruct (py_strip n); congruence).
    reflexivity.
  - destruct H as [H|H]; [discriminate|]. rewrite H; reflexivity.
Qed.

Lemma add_contact_invalid_keeps_book_witness :
  (Name_init (ustr "alice") = inl ValueError \/ Phone_init (ustr "123") = inl ValueError) /\
  add_contact [ustr "alice"; ustr "123"] [] = (ustr "Invalid input format.", []).
Proof.
  assert (H : Name_init (ustr "alice") = inl ValueError \/
              Phone_init (ustr "123") = inl ValueError) by (right; reflexivity).
  split; [exact H|].
  exact (add_contact_invalid_keeps_book (ustr "alice") (ustr "123") [] H).
Defined.

(** C10: [Name] keeps its argument untrimmed: a record built from a name
    with surrounding whitespace is stored under the untrimmed string, and
    the trimmed string is not a key of it. *)
Theorem Name_keeps_untrimmed (raw : pystr) (ab : book) :
  py_strip raw <> [] ->
  Name_init raw = inr raw /\
  Record_init raw = inr (mk_record raw []) /\
  find raw (add_record (mk_record raw []) ab) = Some (mk_record raw []) /\
  (py_strip raw <> raw ->
     find (py_strip raw) (add_record (mk_record raw []) []) = None).
Proof.
  intros H.
  assert (Hn : Name_init raw = inr raw)
    by (unfold Name_init; destruct (py_strip raw); congruence).
  split; [exact Hn|]. split; [unfold Record_init; rewrite Hn; reflexivity|].
  split; [apply dict_get_set_eq|].
  intros Hne; unfold find, add_record; simpl.
  rewrite str_eqb_neq by exact Hne; reflexivity.
Qed.

Lemma Name_keeps_untrimmed_witness :
  py_strip (ustr " Ann ") <> [] /\
  find (ustr "Ann") (add_record (mk_record (ustr " Ann ") []) []) = None.
Proof.
  assert (H : py_strip (ustr " Ann ") <> []) by (vm_compute; discriminate).
  split; [exact H|].
  assert (E : py_strip (ustr " Ann ") = ustr "Ann") by reflexivity.
  rewrite <- E.
  apply (proj2 (proj2 (proj2 (Name_keeps_untrimmed (ustr " Ann ") [] H)))).
  rewrite E; discriminate.
Defined.

(** ** Further properties of the code *)

Lemma find_phone_some (r : record) (x y : pystr) :
  find_phone r x = Some y -> y = x /\ In x (rec_phones r).
Proof.
  unfold find_phone; intros H. apply find_some in H as [Hin Heq].
  apply str_eqb_spec in Heq; subst y; split; [reflexivity | exact Hin].
Qed.

Lemma find_phone_none (r : record) (x : pystr) :
  find_phone r x = None <-> ~ In x (rec_phones r).
Proof.
  unfold find_phone; split.
  - intros H Hin. pose proof (find_none _ _ H x Hin) as E.
    cbv beta in E; rewrite str_eqb_refl in E; discriminate.
  - intros Hn. destruct (List.find _ _) as [y|] eqn:E; [|reflexivity].
    apply find_some in E as [Hin Heq]. apply str_eqb_spec in Heq; subst y.
    contradiction.
Qed.

(** [Record.find_phone] returns the searched value itself when some phone
    of the record equals it, and [None] exactly when none does. *)
Theorem find_phone_spec (r : record) (x : pystr) :
  (forall y, find_phone r x = Some y -> y = x) /\
  (find_phone r x = Some x <-> In x (rec_phones r)) /\
  (find_phone r x = None <-> ~ In x (rec_phones r)).
Proof.
  split; [intros y H; exact (proj1 (find_phone_some r x y H))|].
  split; [|apply find_phone_none].
  split; [intros H; exact (proj2 (find_phone_some r x x H))|].
  intros Hin. destruct (find_phone r x) as [y|] eqn:E.
  - apply find_phone_some in E as [-> _]; reflexivity.
  - apply find_phone_none in E; contradiction.
Qed.

(** [Record.add_phone] with a valid phone appends it at the end of the
    phone list and keeps the name, after which [find_phone] finds it; with
    an invalid phone it raises [ValueError]. *)
Theorem add_phone_then_find_phone (r : record) (p : pystr) :
  (Phone_init p = inr p ->
   exists r', add_phone r p = inr r' /\ rec_name r' = rec_name r /\
              rec_phones r' = rec_phones r ++ [p] /\ find_phone r' p = Some p) /\
  (Phone_init p = inl ValueError -> add_phone r p = inl ValueError).
Proof.
  unfold add_phone; split; intros H; rewrite H; [|reflexivity].
  eexists; split; [reflexivity|]. simpl; split; [reflexivity|]; split; [reflexivity|].
  destruct (find_phone_spec (mk_record (rec_name r) (rec_phones r ++ [p])) p)
    as (_ & [_ Hin] & _).
  apply Hin; simpl; apply in_or_app; right; left; reflexivity.
Qed.

Lemma add_phone_then_find_phone_witness :
  Phone_init (ustr "1234567890") = inr (ustr "1234567890") /\
  exists r', add_phone (mk_record (ustr "ann") [ustr "0000000000"]) (ustr "1234567890") = inr r'
             /\ find_phone r' (ustr "1234567890") = Some (ustr "1234567890").
Proof.
  assert (H : Phone_init (ustr "1234567890") = inr (ustr "1234567890"))
    by (vm_compute; reflexivity).
  split; [exact H|].
  destruct (proj1 (add_phone_then_find_phone (mk_record (ustr "ann") [ustr "0000000000"])
                    (ustr "1234567890")) H) as (r' & H1 & _ & _ & H4).
  exists r'; split; assumption.
Defined.






(** Neither handler raises [KeyError], so the "Contact not found." branch
    of [input_error] is never taken: [add_contact] raises only
    [ValueError], and [get_phone] raises only [IndexError], exactly when it
    receives no argument. *)
Theorem handlers_exceptions (args : list pystr) (ab : book) :
  (forall e, fst (add_contact_body args ab) = inl e -> e = ValueError) /\
  (forall e, get_phone_body args ab = inl e -> e = IndexError /\ args = []) /\
  (get_phone_body args ab = inl IndexError <-> args = []).
Proof.
  split; [|split].
  - intros e. unfold add_contact_body, Record_init, add_phone, Name_init, Phone_init.
    destruct args as [|a [|b [|c t]]]; simpl; try congruence.
    destruct (py_strip a); simpl; [congruence|].
    destruct (negb (py_isdigit b) || negb (Nat.eqb (List.length b) 10)); simpl; congruence.
  - intros e. unfold get_phone_body. destruct args; [split; congruence|].
    destruct (find p ab); discriminate.
  - unfold get_phone_body. destruct args; [split; reflexivity|].
    destruct (find p ab); split; discriminate.
Qed.

Lemma delete_lookup (name : pystr) (ab : book) :
  NoDup (map fst ab) ->
  find name (delete name ab) = None /\
  (forall k, k <> name -> find k (delete name ab) = find k ab).
Proof.
  intros Hnd; unfold delete, dict_mem, find.
  destruct (dict_get name ab) as [r|] eqn:H; [|split; [exact H | reflexivity]].
  destruct (dict_del_split name r ab H) as (pre & post & Hab & Hdel & Hpre).
  rewrite Hdel; split.
  - rewrite dict_get_app, Hpre.
    destruct (dict_get name post) eqn:Hp; [|reflexivity].
    exfalso. apply dict_get_in in Hp.
    rewrite Hab, map_app in Hnd; simpl in Hnd.
    apply NoDup_remove_2 in Hnd; apply Hnd, in_or_app; right; exact Hp.
  - intros k Hk. rewrite Hab, !dict_get_app.
    destruct (dict_get k pre); [reflexivity|].
    simpl; rewrite str_eqb_neq by exact Hk; reflexivity.
Qed.

(** After [AddressBook.delete name] (on a book with distinct keys),
    [get_phone] answers "Contact not found." for [name] and answers as
    before for every other name. *)
Theorem delete_then_get_phone (name : pystr) (ab : book) :
  NoDup (map fst ab) ->
  get_phone [name] (delete name ab) = ustr "Contact not found." /\
  (forall k, k <> name -> get_phone [k] (delete name ab) = get_phone [k] ab).
Proof.
  intros Hnd; destruct (delete_lookup name ab Hnd) as [H1 H2].
  unfold get_phone, get_phone_body; rewrite H1; split; [reflexivity|].
  intros k Hk; rewrite (H2 k Hk); reflexivity.
Qed.

Lemma delete_then_get_phone_witness :
  let ab := [(ustr "ann", mk_record (ustr "ann") [ustr "1234567890"]);
             (ustr "bob", mk_record (ustr "bob") [])] in
  NoDup (map fst ab) /\ get_phone [ustr "ann"] (delete (ustr "ann") ab) = ustr "Contact not found.".
Proof.
  intros ab.
  assert (Hnd : NoDup (map fst ab)).
  { constructor; [simpl; intros [H|[]]; discriminate H | constructor; [intros []|constructor]]. }
  split; [exact Hnd|]. exact (proj1 (delete_then_get_phone (ustr "ann") ab Hnd)).
Defined.

Lemma startswith_app (p x : pystr) : startswith p (p ++ x) = true.
Proof. induction p as [|c p IH]; simpl; [reflexivity|]. rewrite Z.eqb_refl, IH; reflexivity. Qed.

Lemma py_split_nosep (sep : Z) (a : pystr) : ~ In sep a -> py_split sep a = [a].
Proof.
  induction a as [|c a IH]; simpl; intros H; [reflexivity|].
  destruct (Z.eqb_spec c sep) as [E|E]; [exfalso; apply H; left; exact E|].
  rewrite IH by tauto; reflexivity.
Qed.

Lemma py_split_app (sep : Z) (a b : pystr) :
  ~ In sep a -> py_split sep (a ++ sep :: b) = a :: py_split sep b.
Proof.
  induction a as [|c a IH]; simpl; intros H; [rewrite Z.eqb_refl; reflexivity|].
  destruct (Z.eqb_spec c sep) as [E|E]; [exfalso; apply H; left; exact E|].
  rewrite IH by tauto; reflexivity.
Qed.

Lemma add_contact_body_error (args : list pystr) (ab : book) (e : exn) :
  fst (add_contact_body args ab) = inl e -> e = ValueError.
Proof.
  unfold add_contact_body, Record_init, add_phone, Name_init, Phone_init.
  destruct args as [|a [|b [|c t]]]; simpl; try congruence.
  destruct (py_strip a); simpl; [congruence|].
  destruct (negb (py_isdigit b) || negb (Nat.eqb (List.length b) 10)); simpl; congruence.
Qed.


Lemma add_contact_output (args : list pystr) (ab : book) :
  fst (add_contact args ab) = ustr "Invalid input format." \/
  exists n, fst (add_contact args ab) = ustr "Contact " ++ n ++ ustr " added.".
Proof.
  unfold add_contact.
  pose proof (add_contact_body_error args ab) as He.
  destruct (add_contact_body args ab) as [[e|s] ab'] eqn:E; simpl in *.
  - left; rewrite (He e eq_refl); reflexivity.
  - right. unfold add_contact_body in E.
    destruct args as [|a [|b [|c t]]]; try discriminate.
    destruct (Record_init a); [discriminate|].
    destruct (add_phone r b); [discriminate|].
    injection E as <- _; exists a; reflexivity.
Qed.

Lemma main_step_book (py_lower : pystr -> pystr) (line : pystr) (ab : book) :
  snd (fst (main_step py_lower line ab)) = ab \/
  (startswith (ustr "add") (py_lower line) = true /\
   exists args, snd (fst (main_step py_lower line ab)) = snd (add_contact args ab)).
Proof.
  unfold main_step.
  destruct (str_eqb (py_lower line) (ustr "hello")); [left; reflexivity|].
  destruct (startswith (ustr "add") (py_lower line)) eqn:Ha.
  - destruct (Nat.ltb _ 3); [left; reflexivity|].
    right; split; [reflexivity|].
    exists [nth 1 (py_split 32 (py_lower line)) []; nth 2 (py_split 32 (py_lower line)) []].
    destruct (add_contact _ ab) as [out ab']; reflexivity.
  - destruct (startswith (ustr "phone") (py_lower line));
      [destruct (Nat.ltb _ 2); left; reflexivity|].
    destruct (str_eqb (py_lower line) (ustr "all")); [destruct ab; left; reflexivity|].
    destruct (str_eqb (py_lower line) (ustr "exit")); left; reflexivity.
Qed.

(** One command of [main] changes the address book only when the
    lower-cased line starts with [add]; every other command ([hello],
    [phone], [all], [exit], an unknown one) leaves it as it was. *)
Theorem main_step_book_only_by_add (py_lower : pystr -> pystr) (line : pystr) (ab : book) :
  startswith (ustr "add") (py_lower line) = false ->
  snd (fst (main_step py_lower line ab)) = ab.
Proof.
  intros H. destruct (main_step_book py_lower line ab) as [E|[E _]]; [exact E|].
  rewrite H in E; discriminate.
Qed.

Lemma main_step_book_only_by_add_witness :
  startswith (ustr "add") (ascii_lower (ustr "phone ann")) = false /\
  snd (fst (main_step ascii_lower (ustr "phone ann") [])) = [].
Proof.
  assert (H : startswith (ustr "add") (ascii_lower (ustr "phone ann")) = false)
    by reflexivity.
  split; [exact H|]. exact (main_step_book_only_by_add ascii_lower (ustr "phone ann") [] H).
Defined.



Lemma exit_step (py_lower : pystr -> pystr) (line : pystr) (ab : book) :
  py_lower line = ustr "exit" -> main_step py_lower line ab = ([ustr "Good bye!"], ab, false).
Proof. intros H; unfold main_step; rewrite H; reflexivity. Qed.

(** The loop of [main] goes on after every command except the one whose
    lower-cased line is exactly [exit]. *)
Theorem main_step_stops_iff_exit (py_lower : pystr -> pystr) (line : pystr) (ab : book) :
  snd (main_step py_lower line ab) = false <-> py_lower line = ustr "exit".
Proof.
  split; [|intros H; rewrite (exit_step py_lower line ab H); reflexivity].
  intros H; unfold main_step in H.
  destruct (str_eqb (py_lower line) (ustr "hello")); [discriminate H|].
  destruct (startswith (ustr "add") (py_lower line)).
  - destruct (Nat.ltb _ 3); [discriminate H|].
    destruct (add_contact _ ab); discriminate H.
  - destruct (startswith (ustr "phone") (py_lower line)); [destruct (Nat.ltb _ 2); discriminate H|].
    destruct (str_eqb (py_lower line) (ustr "all")); [destruct ab; discriminate H|].
    destruct (str_eqb (py_lower line) (ustr "exit")) eqn:E; [|discriminate H].
    apply str_eqb_spec; exact E.
Qed.

(** Once a line reading [exit] is processed, [main] reads no further
    line: what follows it never affects the output. *)
Theorem main_run_ignores_after_exit (py_lower : pystr -> pystr)
  (pre post post' : list pystr) (x : pystr) (ab : book) :
  py_lower x = ustr "exit" ->
  main_run py_lower (pre ++ x :: post) ab = main_run py_lower (pre ++ x :: post') ab.
Proof.
  intros Hx; revert ab; induction pre as [|l pre IH]; intros ab; simpl.
  - rewrite (exit_step py_lower x ab Hx); reflexivity.
  - destruct (main_step py_lower l ab) as [[out ab'] cont].
    destruct cont; [rewrite IH|]; reflexivity.
Qed.

Lemma main_run_ignores_after_exit_witness :
  ascii_lower (ustr "EXIT") = ustr "exit" /\
  main_run ascii_lower [ustr "hello"; ustr "EXIT"; ustr "add ann 1234567890"] [] =
  main_run ascii_lower [ustr "hello"; ustr "EXIT"] [].
Proof.
  assert (H : ascii_lower (ustr "EXIT") = ustr "exit") by reflexivity.
  split; [exact H|].
  exact (main_run_ignores_after_exit ascii_lower [ustr "hello"] [ustr "add ann 1234567890"] []
           (ustr "EXIT") [] H).
Defined.

Lemma hd_AddressBook_str (kr : pystr * record) (l : book) :
  hd_error (AddressBook_str (kr :: l)) = Some 67%Z.
Proof.
  unfold AddressBook_str; simpl map. destruct (map _ l); reflexivity.
Qed.

Ltac not_arity_line H :=
  first [ vm_compute in H; discriminate H
        | apply (f_equal (@hd_error Z)) in H; cbn in H; discriminate H ].

(** The loop of [main] never prints "Not enough arguments.": it calls
    [add_contact] with exactly two arguments and [get_phone] with exactly
    one, so [IndexError] is never raised through it. *)
Theorem main_step_never_arity_message (py_lower : pystr -> pystr) (line : pystr) (ab : book) :
  ~ In (ustr "Not enough arguments.") (fst (fst (main_step py_lower line ab))).
Proof.
  unfold main_step.
  destruct (str_eqb (py_lower line) (ustr "hello")); [intros [H|[]]; not_arity_line H|].
  destruct (startswith (ustr "add") (py_lower line)).
  - destruct (Nat.ltb _ 3); [intros [H|[]]; not_arity_line H|].
    pose proof (add_contact_output [nth 1 (py_split 32 (py_lower line)) [];
                                    nth 2 (py_split 32 (py_lower line)) []] ab) as Ho.
    destruct (add_contact _ ab) as [out ab']; simpl in Ho.
    intros [H|[]]; destruct Ho as [->|[n ->]]; not_arity_line H.
  - destruct (startswith (ustr "phone") (py_lower line)).
    + destruct (Nat.ltb _ 2); [intros [H|[]]; not_arity_line H|].
      unfold get_phone, get_phone_body.
      destruct (find _ ab); intros [H|[]]; not_arity_line H.
    + destruct (str_eqb (py_lower line) (ustr "all")).
      * destruct ab as [|kr l]; [intros [H|[]]; not_arity_line H|].
        intros [H|[H|[]]]; [not_arity_line H|].
        apply (f_equal (@hd_error Z)) in H. rewrite hd_AddressBook_str in H.
        vm_compute in H; discriminate H.
      * destruct (str_eqb (py_lower line) (ustr "exit")); intros [H|[]]; not_arity_line H.
Qed.

Lemma add_no_space : ~ In 32%Z (ustr "add").
Proof. intros H; simpl in H; lia. Qed.



Lemma add_line_step (py_lower : pystr -> pystr) (n p rest : pystr) (ab : book) :
  let line := ustr "add" ++ 32%Z :: n ++ 32%Z :: p ++ rest in
  py_lower line = line -> ~ In 32%Z n -> ~ In 32%Z p ->
  (rest = [] \/ exists r, rest = 32%Z :: r) ->
  main_step py_lower line ab =
  ([fst (add_contact [n; p] ab)], snd (add_contact [n; p] ab), true).
Proof.
  intros line Hl Hn Hp Hr. unfold main_step; rewrite Hl.
  assert (Hh : str_eqb line (ustr "hello") = false).
  { apply str_eqb_neq; intros H; apply (f_equal (@hd_error Z)) in H.
    cbn in H; discriminate H. }
  rewrite Hh; unfold line; rewrite startswith_app.
  assert (Hs : exists tail, py_split 32 (ustr "add" ++ 32%Z :: n ++ 32%Z :: p ++ rest)
                            = ustr "add" :: n :: p :: tail).
  { rewrite (py_split_app _ _ _ add_no_space), (py_split_app _ _ _ Hn).
    destruct Hr as [->|[r ->]].
    - rewrite app_nil_r, (py_split_nosep _ _ Hp); exists []; reflexivity.
    - rewrite (py_split_app _ _ _ Hp); eexists; reflexivity. }
  destruct Hs as [tail ->]. cbn [List.length Nat.ltb Nat.leb nth].
  destruct (add_contact [n; p] ab); reflexivity.
Qed.

(** A line [add <name> <phone> ...] (already lower case, with name and
    phone free of spaces) runs [add_contact [name; phone]]: [main] takes
    the second and third space-separated tokens and ignores any further
    ones. *)
Theorem add_command_step (py_lower : pystr -> pystr) (n p rest : pystr) (ab : book) :
  py_lower (ustr "add" ++ 32%Z :: n ++ 32%Z :: p ++ rest) =
    ustr "add" ++ 32%Z :: n ++ 32%Z :: p ++ rest ->
  ~ In 32%Z n -> ~ In 32%Z p -> (rest = [] \/ exists r, rest = 32%Z :: r) ->
  main_step py_lower (ustr "add" ++ 32%Z :: n ++ 32%Z :: p ++ rest) ab =
  ([fst (add_contact [n; p] ab)], snd (add_contact [n; p] ab), true).
Proof. exact (add_line_step py_lower n p rest ab). Qed.

Lemma add_command_step_witness :
  let line := ustr "add ann 1234567890 extra tokens" in
  (ascii_lower line = line /\ ~ In 32%Z (ustr "ann") /\ ~ In 32%Z (ustr "1234567890") /\
   (ustr " extra tokens" = [] \/ exists r, ustr " extra tokens" = 32%Z :: r)) /\
  main_step ascii_lower line [] =
  ([fst (add_contact [ustr "ann"; ustr "1234567890"] [])],
   snd (add_contact [ustr "ann"; ustr "1234567890"] []), true).
Proof.
  intros line.
  assert (H1 : ascii_lower line = line) by reflexivity.
  assert (H2 : ~ In 32%Z (ustr "ann")) by (intros H; simpl in H; lia).
  assert (H3 : ~ In 32%Z (ustr "1234567890")) by (intros H; simpl in H; lia).
  assert (H4 : ustr " extra tokens" = [] \/ exists r, ustr " extra tokens" = 32%Z :: r)
    by (right; eexists; reflexivity).
  split; [repeat split; assumption|].
  exact (add_command_step ascii_lower (ustr "ann") (ustr "1234567890") (ustr " extra tokens")
           [] H1 H2 H3 H4).
Defined.





